(** * cgdiplus: the C-callable bridge over GDI+

    A shallow embedding of [external/win32_gdiplus/cgdiplus.cc] and of the
    declarations of [cgdiplus.h], with the properties of the error slot,
    of the creation calls and of the forwarded drawing calls.

    The bridge is straight-line code around calls into GDI+.  GDI+ itself
    is not part of the repository, so it is a parameter of the model: an
    oracle that answers every forwarded call, given the calls made so far.
    The calls are logged with their arguments, which is what a stub native
    layer would capture. *)

From Stdlib Require Import ZArith String List Bool Lia.
From Stdlib Require Import Floats.SpecFloat.
From stdpp Require Import base option gmap.

Import ListNotations.
Local Open Scope Z_scope.

(** ** C data *)

(** [float]: IEEE 754 binary32, 24 bits of precision, infinities at 2^128. *)
Definition float : Type := spec_float.

Definition float_sub (x y : float) : float := SFsub 24 128 x y.

(** A pointer handed in by the caller: [nullptr], or the address of
    storage the caller owns. *)
Inductive ptr : Type :=
| nullptr
| Loc (a : N).

(** [GDIPColor]: four [uint8_t] channels. *)
Record GDIPColor : Type := { r : Z; g : Z; b : Z; a : Z }.

Definition valid_color (c : GDIPColor) : Prop :=
  0 <= r c < 256 /\ 0 <= g c < 256 /\ 0 <= b c < 256 /\ 0 <= a c < 256.

(** [uint32_t] stroke widths. *)
Definition valid_width (w : Z) : Prop := 0 <= w < 2 ^ 32.

(** The three handle structs of the header: a native slot and a status. *)
Record GDIPGraphics : Type :=
  { native_graphics : Z; graphics_last_status : Z }.
Record GDIPPen : Type :=
  { native_pen : Z; pen_last_status : Z }.
Record GDIPBrush : Type :=
  { native_brush : Z; brush_last_status : Z }.

(** ** The native side *)

(** [Gdiplus::Status]; the source only ever compares against [Status::Ok]. *)
Definition Status : Type := Z.
Definition Ok : Status := 0.

(** [Gdiplus::Color(c1, c2, c3, c4)], the arguments in call order. *)
Definition Gdiplus_Color : Type := (Z * Z * Z * Z)%type.

(** A GDI+ object held by value ([Gdiplus::Graphics], [Gdiplus::Pen],
    [Gdiplus::Brush]): the native pointer and the status of the last call.
    The casts of the source read a handle struct as such an object and back. *)
Record native_object : Type := { obj_native : Z; obj_status : Status }.

(** Calls that reach GDI+, with the arguments of the call site.  Arguments
    are recorded as the source writes them; what the prototypes of
    [gdiplus.h] convert them to is outside this repository. *)
Inductive native_call : Type :=
| GdiplusStartup (token : ptr)
| GdiplusShutdown (token : Z)
| Graphics_new (hDC : Z)
| Graphics_delete (o : native_object)
| Pen_new (color : Gdiplus_Color) (width : Z)
| Pen_delete (o : native_object)
| Brush_new (color : Gdiplus_Color)
| Brush_delete (o : native_object)
| DrawLine (graphics pen : ptr) (x1 y1 x2 y2 : Z)
| DrawRectangle (graphics pen : ptr) (x y width height : Z)
| DrawArc (graphics pen : ptr) (x y width height : Z) (start sweep : float)
| DrawEllipse (graphics pen : ptr) (x y width height : Z)
| FillRectangle (graphics brush : ptr) (x y width height : Z)
| FillPie (graphics brush : ptr) (x y width height : Z) (start sweep : float)
| FillEllipse (graphics brush : ptr) (x y width height : Z).

(** What GDI+ answers: it returns, with a status and a value (the token of
    a start-up, the native pointer of a new object), or it throws. *)
Inductive native_reply : Type :=
| Replied (status : Status) (value : Z)
| Threw.

(** GDI+ as an oracle: the answer to a call, given the earlier calls. *)
Definition native_layer : Type := list native_call -> native_call -> native_reply.

(** A native layer that reports through status codes only. *)
Definition nothrow (gdi : native_layer) : Prop :=
  forall (earlier : list native_call) (c : native_call), gdi earlier c <> Threw.

(** ** Program state *)

(** What a caller-owned location holds. *)
Inductive cell : Type :=
| CToken (token : Z)
| CGraphics (h : GDIPGraphics)
| CPen (h : GDIPPen)
| CBrush (h : GDIPBrush).

(** The global [current_error], the caller's storage reachable through the
    output pointers, and the calls forwarded to GDI+ so far, oldest first. *)
Record state : Type :=
  { current_error : Z;
    memory : gmap N cell;
    gdi_calls : list native_call }.

(** How a call into the bridge ends: it returns to the caller; it stores
    through [nullptr] (undefined behaviour, nothing is returned); or an
    exception of the native layer leaves the [extern "C"] function. *)
Inductive outcome (A : Type) : Type :=
| Returned (v : A) (st : state)
| Fault
| Unwound (st : state).
Arguments Returned {A} v st.
Arguments Fault {A}.
Arguments Unwound {A} st.

Definition M (A : Type) : Type := state -> outcome A.

Definition ret {A : Type} (v : A) : M A := fun st => Returned v st.

Definition bind {A B : Type} (m : M A) (k : A -> M B) : M B :=
  fun st =>
    match m st with
    | Returned v st' => k v st'
    | Fault => Fault
    | Unwound st' => Unwound st'
    end.

Notation "'let*' x ':=' m 'in' k" := (bind m (fun x => k))
  (at level 10, x pattern, m at level 100, k at level 200).

(** [current_error = i;] *)
Definition set_current_error (i : Z) : M unit :=
  fun st =>
    Returned tt {| current_error := i;
                   memory := memory st;
                   gdi_calls := gdi_calls st |}.

(** [*p = c;] *)
Definition store (p : ptr) (c : cell) : M unit :=
  fun st =>
    match p with
    | nullptr => Fault
    | Loc a =>
        Returned tt {| current_error := current_error st;
                       memory := <[a := c]> (memory st);
                       gdi_calls := gdi_calls st |}
    end.

Definition log_call (c : native_call) (st : state) : state :=
  {| current_error := current_error st;
     memory := memory st;
     gdi_calls := gdi_calls st ++ [c] |}.

(** ** Constants of the source *)

Definition error_list : list string :=
  [ "GDI+ threw an exception";
    "GDI+ function returned non-OK status";
    "startup_token pointer is null" ]%string.

(** [#define EXCEPTION_OUT current_error = 0; return 0;] *)
Definition EXCEPTION_OUT : M Z := let* _ := set_current_error 0 in ret 0.

(** [#define STATUS_OUT current_error = 1; return 0;] *)
Definition STATUS_OUT : M Z := let* _ := set_current_error 1 in ret 0.

Definition cvt_clr (clr : GDIPColor) : Gdiplus_Color :=
  (r clr, g clr, b clr, a clr).

(** [error_list[current_error]]; [None] is a read outside the array. *)
Definition err_pointer (st : state) : option string :=
  let i := current_error st in
  if (0 <=? i) && (i <? Z.of_nat (length error_list))
  then nth_error error_list (Z.to_nat i)
  else None.

(** Reading a handle struct as the GDI+ object it stands for, and back. *)
Definition graphics_object (h : GDIPGraphics) : native_object :=
  {| obj_native := native_graphics h; obj_status := graphics_last_status h |}.
Definition pen_object (h : GDIPPen) : native_object :=
  {| obj_native := native_pen h; obj_status := pen_last_status h |}.
Definition brush_object (h : GDIPBrush) : native_object :=
  {| obj_native := native_brush h; obj_status := brush_last_status h |}.

Definition object_graphics (o : native_object) : GDIPGraphics :=
  {| native_graphics := obj_native o; graphics_last_status := obj_status o |}.
Definition object_pen (o : native_object) : GDIPPen :=
  {| native_pen := obj_native o; pen_last_status := obj_status o |}.
Definition object_brush (o : native_object) : GDIPBrush :=
  {| native_brush := obj_native o; brush_last_status := obj_status o |}.

(** ** The bridge *)

Section Bridge.

Variable gdi : native_layer.

(** A call into GDI+: logged, then answered.  [memory] records the stores
    the bridge makes (and the token of a start-up); what GDI+ itself
    writes into a handle it is handed by pointer, such as the status of a
    drawing call, is on the native side and is not tracked. *)
Definition call (c : native_call) : M (Status * Z) :=
  fun st =>
    match gdi (gdi_calls st) c with
    | Replied s v => Returned (s, v) (log_call c st)
    | Threw => Unwound (log_call c st)
    end.

(** [Gdiplus::GdiplusStartup(token, &input, nullptr)]: on success the
    native routine leaves the token where [token] points. *)
Definition Gdiplus_GdiplusStartup (token : ptr) : M Status :=
  let* (s, v) := call (GdiplusStartup token) in
  let* _ := match token with
            | Loc _ => if s =? Ok then store token (CToken v) else ret tt
            | nullptr => ret tt
            end in
  ret s.

(** A constructor call: the object it builds, held by value. *)
Definition construct (c : native_call) : M native_object :=
  let* (s, v) := call c in
  ret {| obj_native := v; obj_status := s |}.

(** A destructor call, when an object held by value dies. *)
Definition destroy (c : native_call) : M unit :=
  let* _ := call c in ret tt.

Definition initialize_gdiplus (startup_token : ptr) : M Z :=
  let* status := Gdiplus_GdiplusStartup startup_token in
  if negb (status =? Ok) then STATUS_OUT else ret 1.

Definition done_gdiplus (startup_token : Z) : M unit :=
  let* _ := call (GdiplusShutdown startup_token) in ret tt.

(** [*g = Gdiplus::Graphics(hDC);]: the temporary is built, copied into
    the caller's struct, and dies at the end of the statement. *)
Definition from_hdc (hDC : Z) (graphics : ptr) : M Z :=
  let* tmp := construct (Graphics_new hDC) in
  let* _ := store graphics (CGraphics (object_graphics tmp)) in
  let* _ := destroy (Graphics_delete tmp) in
  ret 1.

(** The copy goes out of scope when the function returns. *)
Definition done_graphics (graphics : GDIPGraphics) : M unit :=
  destroy (Graphics_delete (graphics_object graphics)).

Definition create_pen (color : GDIPColor) (width : Z) (pen : ptr) : M Z :=
  let* tmp := construct (Pen_new (cvt_clr color) width) in
  let* _ := store pen (CPen (object_pen tmp)) in
  let* _ := destroy (Pen_delete tmp) in
  ret 1.

Definition done_pen (pen : GDIPPen) : M unit :=
  destroy (Pen_delete (pen_object pen)).

Definition create_brush (color : GDIPColor) (brush : ptr) : M Z :=
  let* tmp := construct (Brush_new (cvt_clr color)) in
  let* _ := store brush (CBrush (object_brush tmp)) in
  let* _ := destroy (Brush_delete tmp) in
  ret 1.

Definition done_brush (brush : GDIPBrush) : M unit :=
  destroy (Brush_delete (brush_object brush)).

Definition draw_line (graphics pen : ptr) (x1 y1 x2 y2 : Z) : M Z :=
  let* _ := call (DrawLine graphics pen x1 y1 x2 y2) in ret 1.

Definition draw_rectangle (graphics pen : ptr) (x y width height : Z) : M Z :=
  let* _ := call (DrawRectangle graphics pen x y width height) in ret 1.

Definition draw_arc (graphics pen : ptr)
    (rectleft recttop rectwidth rectheight : Z)
    (start_angle end_angle : float) : M Z :=
  let* _ := call (DrawArc graphics pen rectleft recttop rectwidth rectheight
                    start_angle (float_sub end_angle start_angle)) in
  ret 1.

Definition draw_ellipse (graphics pen : ptr)
    (rectleft recttop rectwidth rectheight : Z) : M Z :=
  let* _ := call (DrawEllipse graphics pen rectleft recttop rectwidth rectheight) in
  ret 1.

Definition fill_rectangle (graphics brush : ptr)
    (rectleft recttop rectwidth rectheight : Z) : M Z :=
  let* _ := call (FillRectangle graphics brush rectleft recttop rectwidth rectheight) in
  ret 1.

Definition fill_arc (graphics brush : ptr)
    (rectleft recttop rectwidth rectheight : Z)
    (start_angle end_angle : float) : M Z :=
  let* _ := call (FillPie graphics brush rectleft recttop rectwidth rectheight
                    start_angle (float_sub end_angle start_angle)) in
  ret 1.

Definition fill_ellipse (graphics brush : ptr)
    (rectleft recttop rectwidth rectheight : Z) : M Z :=
  let* _ := call (FillEllipse graphics brush rectleft recttop rectwidth rectheight) in
  ret 1.

End Bridge.

(** ** Sequences of calls *)

(** The entry points of [cgdiplus.h], with their arguments. *)
Inductive op : Type :=
| op_err_pointer
| op_initialize_gdiplus (startup_token : ptr)
| op_done_gdiplus (startup_token : Z)
| op_from_hdc (hDC : Z) (graphics : ptr)
| op_done_graphics (graphics : GDIPGraphics)
| op_create_pen (color : GDIPColor) (width : Z) (pen : ptr)
| op_done_pen (pen : GDIPPen)
| op_create_brush (color : GDIPColor) (brush : ptr)
| op_done_brush (brush : GDIPBrush)
| op_draw_line (graphics pen : ptr) (x1 y1 x2 y2 : Z)
| op_draw_rectangle (graphics pen : ptr) (x y width height : Z)
| op_draw_arc (graphics pen : ptr) (l t w h : Z) (start_angle end_angle : float)
| op_draw_ellipse (graphics pen : ptr) (l t w h : Z)
| op_fill_rectangle (graphics brush : ptr) (l t w h : Z)
| op_fill_arc (graphics brush : ptr) (l t w h : Z) (start_angle end_angle : float)
| op_fill_ellipse (graphics brush : ptr) (l t w h : Z).

(** What an entry point hands back: an [int], nothing, or a message. *)
Inductive retval : Type :=
| RInt (z : Z)
| RVoid
| RMessage (s : option string).

Definition returns_int (m : M Z) : M retval :=
  let* z := m in ret (RInt z).

Definition returns_void (m : M unit) : M retval :=
  let* _ := m in ret RVoid.

Definition exec (gdi : native_layer) (o : op) : M retval :=
  match o with
  | op_err_pointer => fun st => Returned (RMessage (err_pointer st)) st
  | op_initialize_gdiplus tok => returns_int (initialize_gdiplus gdi tok)
  | op_done_gdiplus tok => returns_void (done_gdiplus gdi tok)
  | op_from_hdc hDC gr => returns_int (from_hdc gdi hDC gr)
  | op_done_graphics gr => returns_void (done_graphics gdi gr)
  | op_create_pen c w p => returns_int (create_pen gdi c w p)
  | op_done_pen p => returns_void (done_pen gdi p)
  | op_create_brush c p => returns_int (create_brush gdi c p)
  | op_done_brush p => returns_void (done_brush gdi p)
  | op_draw_line gr p x1 y1 x2 y2 => returns_int (draw_line gdi gr p x1 y1 x2 y2)
  | op_draw_rectangle gr p x y w h => returns_int (draw_rectangle gdi gr p x y w h)
  | op_draw_arc gr p l t w h s e => returns_int (draw_arc gdi gr p l t w h s e)
  | op_draw_ellipse gr p l t w h => returns_int (draw_ellipse gdi gr p l t w h)
  | op_fill_rectangle gr p l t w h => returns_int (fill_rectangle gdi gr p l t w h)
  | op_fill_arc gr p l t w h s e => returns_int (fill_arc gdi gr p l t w h s e)
  | op_fill_ellipse gr p l t w h => returns_int (fill_ellipse gdi gr p l t w h)
  end.

(** The calls of a caller, one after the other, as long as each returns. *)
Fixpoint run (gdi : native_layer) (ops : list op) : M (list retval) :=
  match ops with
  | [] => ret []
  | o :: rest =>
      let* v := exec gdi o in
      let* vs := run gdi rest in
      ret (v :: vs)
  end.

(** A fallible entry point failed when it handed back 0. *)
Definition failed (v : retval) : bool :=
  match v with
  | RInt 0 => true
  | _ => false
  end.

(** The seven drawing entry points, and the native call each forwards. *)
Definition forwarded (o : op) : option native_call :=
  match o with
  | op_draw_line gr p x1 y1 x2 y2 => Some (DrawLine gr p x1 y1 x2 y2)
  | op_draw_rectangle gr p x y w h => Some (DrawRectangle gr p x y w h)
  | op_draw_arc gr p l t w h s e => Some (DrawArc gr p l t w h s (float_sub e s))
  | op_draw_ellipse gr p l t w h => Some (DrawEllipse gr p l t w h)
  | op_fill_rectangle gr p l t w h => Some (FillRectangle gr p l t w h)
  | op_fill_arc gr p l t w h s e => Some (FillPie gr p l t w h s (float_sub e s))
  | op_fill_ellipse gr p l t w h => Some (FillEllipse gr p l t w h)
  | _ => None
  end.

Definition is_drawing (o : op) : bool :=
  match o with
  | op_draw_line _ _ _ _ _ _ | op_draw_rectangle _ _ _ _ _ _
  | op_draw_arc _ _ _ _ _ _ _ _ | op_draw_ellipse _ _ _ _ _ _
  | op_fill_rectangle _ _ _ _ _ _ | op_fill_arc _ _ _ _ _ _ _ _
  | op_fill_ellipse _ _ _ _ _ _ => true
  | _ => false
  end.

(** The state a call ends in, when there is one. *)
Definition final_state {A : Type} (r : outcome A) : option state :=
  match r with
  | Returned _ st => Some st
  | Fault => None
  | Unwound st => Some st
  end.

(** [size_t current_error = SIZE_MAX;], nothing stored, nothing forwarded.
    [SIZE_MAX] depends on the target (2^32 - 1 or 2^64 - 1); C guarantees
    it is at least 65535. *)
Definition initial_state (SIZE_MAX : Z) : state :=
  {| current_error := SIZE_MAX; memory := ∅; gdi_calls := [] |}.

(** The 64-bit Windows target: [size_t] is 64 bits wide. *)
Definition SIZE_MAX_win64 : Z := 2 ^ 64 - 1.

(** States a caller can observe: after any number of calls that returned. *)
Inductive reachable (gdi : native_layer) (SIZE_MAX : Z) : state -> Prop :=
| reachable_initial : reachable gdi SIZE_MAX (initial_state SIZE_MAX)
| reachable_returned st o v st' :
    reachable gdi SIZE_MAX st ->
    exec gdi o st = Returned v st' ->
    reachable gdi SIZE_MAX st'
| reachable_unwound st o st' :
    reachable gdi SIZE_MAX st ->
    exec gdi o st = Unwound st' ->
    reachable gdi SIZE_MAX st'.

(** ** Stub native layers *)

(** Every call succeeds; objects get native pointer 4096, tokens are 7. *)
Definition gdi_ok : native_layer :=
  fun _ c =>
    match c with
    | GdiplusStartup _ => Replied Ok 7
    | _ => Replied Ok 4096
    end.

(** A GDI+ that refuses a start-up without a token location, with
    [InvalidParameter] (2); everything else succeeds. *)
Definition gdi_checks_token : native_layer :=
  fun _ c =>
    match c with
    | GdiplusStartup nullptr => Replied 2 0
    | GdiplusStartup (Loc _) => Replied Ok 7
    | _ => Replied Ok 4096
    end.

(** Start-up fails, with [UnsupportedGdiplusVersion] (17). *)
Definition gdi_startup_fails : native_layer :=
  fun _ c =>
    match c with
    | GdiplusStartup _ => Replied 17 0
    | _ => Replied Ok 4096
    end.

(** Allocating a pen or a brush throws. *)
Definition gdi_alloc_throws : native_layer :=
  fun _ c =>
    match c with
    | Pen_new _ _ | Brush_new _ => Threw
    | GdiplusStartup _ => Replied Ok 7
    | _ => Replied Ok 4096
    end.

(** Drawing reports a failure status (here [OutOfMemory], 3). *)
Definition gdi_draw_fails : native_layer :=
  fun _ c =>
    match c with
    | GdiplusStartup _ => Replied Ok 7
    | Graphics_new _ | Pen_new _ _ | Brush_new _
    | Graphics_delete _ | Pen_delete _ | Brush_delete _
    | GdiplusShutdown _ => Replied Ok 4096
    | _ => Replied 3 0
    end.

Definition black : GDIPColor := {| r := 0; g := 0; b := 0; a := 0 |}.
Definition red : GDIPColor := {| r := 255; g := 0; b := 0; a := 255 |}.

(** 90.0f and 45.0f, and their difference 45.0f - 90.0f = -45.0f. *)
Definition f90 : float := S754_finite false 11796480 (-17).
Definition f45 : float := S754_finite false 11796480 (-18).
Definition fm45 : float := S754_finite true 11796480 (-18).

(** ** Predicates of the statements *)

(** A computation that leaves [current_error] as it found it, however it
    ends. *)
Definition keeps_error_slot {A : Type} (m : M A) : Prop :=
  forall st,
    match final_state (m st) with
    | Some st' => current_error st' = current_error st
    | None => True
    end.

(** The caller's location an entry point is given to write to. *)
Definition output_location (o : op) : option N :=
  match o with
  | op_initialize_gdiplus (Loc a)
  | op_from_hdc _ (Loc a)
  | op_create_pen _ _ (Loc a)
  | op_create_brush _ (Loc a) => Some a
  | _ => None
  end.

(** The four release entry points, and the native call each forwards. *)
Definition released (o : op) : option native_call :=
  match o with
  | op_done_gdiplus token => Some (GdiplusShutdown token)
  | op_done_graphics h => Some (Graphics_delete (graphics_object h))
  | op_done_pen h => Some (Pen_delete (pen_object h))
  | op_done_brush h => Some (Brush_delete (brush_object h))
  | _ => None
  end.

(** Every allocation is refused with [OutOfMemory] (3) and a null native
    pointer; nothing throws. *)
Definition gdi_alloc_fails : native_layer :=
  fun _ c =>
    match c with
    | Graphics_new _ | Pen_new _ _ | Brush_new _ => Replied 3 0
    | GdiplusStartup _ => Replied Ok 7
    | _ => Replied Ok 4096
    end.

(** The one message [STATUS_OUT] selects. *)
Definition status_message : string := "GDI+ function returned non-OK status".

(** ** Sanity checks of the model on concrete calls *)

Example sweep_45_minus_90 : float_sub f45 f90 = fm45.
Proof. reflexivity. Qed.

Example err_pointer_initially :
  err_pointer (initial_state (2 ^ 64 - 1)) = None.
Proof. reflexivity. Qed.

Example brush_scenario :
  run gdi_ok
      [ op_create_brush red (Loc 2);
        op_fill_rectangle (Loc 1) (Loc 2) 0 0 10 10;
        op_done_brush {| native_brush := 4096; brush_last_status := 0 |} ]
      (initial_state SIZE_MAX_win64)
  = Returned [RInt 1; RInt 1; RVoid]
      {| current_error := SIZE_MAX_win64;
         memory := <[2%N := CBrush {| native_brush := 4096;
                                       brush_last_status := 0 |}]> ∅;
         gdi_calls :=
           [ Brush_new (255, 0, 0, 255);
             Brush_delete {| obj_native := 4096; obj_status := 0 |};
             FillRectangle (Loc 1) (Loc 2) 0 0 10 10;
             Brush_delete {| obj_native := 4096; obj_status := 0 |} ] |}.
Proof. reflexivity. Qed.

(** ** Who writes the error slot *)

Lemma keeps_ret {A : Type} (v : A) : keeps_error_slot (ret v).
Proof. intros st. reflexivity. Qed.

Lemma keeps_bind {A B : Type} (m : M A) (k : A -> M B) :
  keeps_error_slot m ->
  (forall x, keeps_error_slot (k x)) ->
  keeps_error_slot (bind m k).
Proof.
  intros Hm Hk st. unfold bind.
  specialize (Hm st). destruct (m st) as [x st1| |st1]; simpl in *.
  - specialize (Hk x st1). destruct (final_state (k x st1)); [congruence|exact I].
  - exact I.
  - exact Hm.
Qed.

Lemma keeps_store (p : ptr) (c : cell) : keeps_error_slot (store p c).
Proof. intros st. destruct p; reflexivity. Qed.

Lemma keeps_call gdi (c : native_call) : keeps_error_slot (call gdi c).
Proof. intros st. unfold call. destruct (gdi _ c); reflexivity. Qed.

Create HintDb slot.
#[local] Hint Resolve keeps_ret keeps_store keeps_call : slot.

Ltac keeps_slot :=
  repeat first
    [ apply keeps_ret
    | apply keeps_store
    | apply keeps_call
    | apply keeps_bind; [ | intros ? ]
    | match goal with
      | |- keeps_error_slot (let '(_, _) := ?p in _) => destruct p
      | |- keeps_error_slot (match ?p with nullptr => _ | Loc _ => _ end) =>
          destruct p
      | |- keeps_error_slot (if ?c then _ else _) => destruct c
      end ].

Lemma keeps_construct gdi c : keeps_error_slot (construct gdi c).
Proof. unfold construct. keeps_slot. Qed.

Lemma keeps_destroy gdi c : keeps_error_slot (destroy gdi c).
Proof. unfold destroy. keeps_slot. Qed.

Lemma keeps_GdiplusStartup gdi token :
  keeps_error_slot (Gdiplus_GdiplusStartup gdi token).
Proof. unfold Gdiplus_GdiplusStartup. keeps_slot. Qed.

#[local] Hint Resolve keeps_construct keeps_destroy keeps_GdiplusStartup : slot.

Lemma keeps_done_gdiplus gdi token : keeps_error_slot (done_gdiplus gdi token).
Proof. unfold done_gdiplus. keeps_slot. Qed.

Lemma keeps_from_hdc gdi hDC graphics :
  keeps_error_slot (from_hdc gdi hDC graphics).
Proof. unfold from_hdc. keeps_slot; auto with slot. Qed.

Lemma keeps_create_pen gdi color width pen :
  keeps_error_slot (create_pen gdi color width pen).
Proof. unfold create_pen. keeps_slot; auto with slot. Qed.

Lemma keeps_create_brush gdi color brush :
  keeps_error_slot (create_brush gdi color brush).
Proof. unfold create_brush. keeps_slot; auto with slot. Qed.

Lemma keeps_drawing gdi o :
  is_drawing o = true -> keeps_error_slot (exec gdi o).
Proof.
  destruct o; try discriminate; intros _; simpl;
    unfold returns_int, draw_line, draw_rectangle, draw_arc, draw_ellipse,
      fill_rectangle, fill_arc, fill_ellipse; keeps_slot.
Qed.

(** Unfolding an entry point down to the answers of the native layer. *)
Ltac unfold_bridge :=
  unfold exec, returns_int, returns_void,
    initialize_gdiplus, done_gdiplus, from_hdc, done_graphics,
    create_pen, done_pen, create_brush, done_brush,
    draw_line, draw_rectangle, draw_arc, draw_ellipse,
    fill_rectangle, fill_arc, fill_ellipse,
    Gdiplus_GdiplusStartup, construct, destroy,
    STATUS_OUT, EXCEPTION_OUT, set_current_error, store, bind, call, ret in *.

Ltac case_replies :=
  repeat match goal with
    | |- context [match ?gdi ?earlier ?c with Replied _ _ => _ | Threw => _ end] =>
        let E := fresh "Hreply" in
        destruct (gdi earlier c) eqn:E; simpl
    | |- context [match ?p with nullptr => _ | Loc _ => _ end] =>
        destruct p; simpl
    | |- context [?s =? Ok] =>
        let E := fresh "Hstatus" in
        destruct (s =? Ok) eqn:E; simpl
    end.

(** Each entry point, call by call: a call that returns 0 is a start-up
    that GDI+ refused, and it leaves 1 in the slot; every other call,
    returning or unwinding, leaves the slot alone. *)
Lemma exec_error_slot gdi o st :
  match exec gdi o st with
  | Returned v st' =>
      (failed v = false /\ current_error st' = current_error st)
      \/ (failed v = true /\ current_error st' = 1 /\
          exists token s x,
            o = op_initialize_gdiplus token /\
            gdi (gdi_calls st) (GdiplusStartup token) = Replied s x /\
            s <> Ok)
  | Fault => True
  | Unwound st' => current_error st' = current_error st
  end.
Proof.
  destruct o; unfold_bridge; simpl; case_replies; auto;
    try (left; split; reflexivity).
  all: right; repeat split; eexists _, _, _; repeat split; eauto;
    apply Z.eqb_neq; assumption.
Qed.

Lemma exec_returned_slot gdi o st v st' :
  exec gdi o st = Returned v st' ->
  current_error st' = if failed v then 1 else current_error st.
Proof.
  intros H. pose proof (exec_error_slot gdi o st) as P. rewrite H in P.
  destruct P as [[-> ->]|[-> [-> _]]]; reflexivity.
Qed.

Lemma exec_unwound_slot gdi o st st' :
  exec gdi o st = Unwound st' -> current_error st' = current_error st.
Proof.
  intros H. pose proof (exec_error_slot gdi o st) as P. rewrite H in P. exact P.
Qed.

Lemma run_cons_inv gdi o ops st vs st' :
  run gdi (o :: ops) st = Returned vs st' ->
  exists v st1 vs',
    exec gdi o st = Returned v st1 /\
    run gdi ops st1 = Returned vs' st' /\
    vs = v :: vs'.
Proof.
  simpl. unfold bind, ret.
  destruct (exec gdi o st) as [v st1| |]; try discriminate.
  destruct (run gdi ops st1) as [vs' st2| |] eqn:Hrest; try discriminate.
  intros [= <- <-]. exists v, st1, vs'. repeat split; [exact Hrest].
Qed.

(** After a run of calls the slot holds 1 if one of them failed, and what
    it held before otherwise. *)
Lemma run_returned_slot gdi ops : forall st vs st',
  run gdi ops st = Returned vs st' ->
  current_error st' = if existsb failed vs then 1 else current_error st.
Proof.
  induction ops as [|o ops IH]; intros st vs st' H.
  - inversion H; subst. reflexivity.
  - apply run_cons_inv in H as (v & st1 & vs' & Ho & Hrest & ->).
    apply IH in Hrest. apply exec_returned_slot in Ho. simpl.
    rewrite Hrest, Ho. destruct (failed v), (existsb failed vs'); reflexivity.
Qed.

Lemma err_pointer_status st :
  current_error st = 1 ->
  err_pointer st = Some "GDI+ function returned non-OK status"%string.
Proof. unfold err_pointer. intros ->. reflexivity. Qed.

Lemma err_pointer_out_of_bounds st :
  65535 <= current_error st -> err_pointer st = None.
Proof.
  unfold err_pointer. intros H.
  replace (current_error st <? Z.of_nat (length error_list)) with false.
  - rewrite andb_false_r. reflexivity.
  - symmetry. apply Z.ltb_ge. simpl. lia.
Qed.

(** ** The error slot over sequences of calls *)

(** C10: in every state reachable by calls into the bridge, [current_error]
    is its initial value [SIZE_MAX] or 1; as [SIZE_MAX] is at least 65535,
    it is never 0 (exception) nor 2 (null pointer). *)
Theorem current_error_initial_or_status gdi SIZE_MAX st :
  65535 <= SIZE_MAX ->
  reachable gdi SIZE_MAX st ->
  (current_error st = SIZE_MAX \/ current_error st = 1)
  /\ current_error st <> 0 /\ current_error st <> 2.
Proof.
  intros Hmax Hreach.
  assert (Hinv : current_error st = SIZE_MAX \/ current_error st = 1).
  { induction Hreach as [|st o v st' _ IH Hexec|st o st' _ IH Hexec].
    - left. reflexivity.
    - apply exec_returned_slot in Hexec. rewrite Hexec.
      destruct (failed v); [right; reflexivity|exact IH].
    - apply exec_unwound_slot in Hexec. rewrite Hexec. exact IH. }
  split; [exact Hinv|]. destruct Hinv as [->| ->]; lia.
Qed.

Lemma current_error_initial_or_status_witness :
  65535 <= SIZE_MAX_win64 /\
  reachable gdi_startup_fails SIZE_MAX_win64
    {| current_error := 1; memory := ∅;
       gdi_calls := [GdiplusStartup (Loc 1)] |} /\
  ((1 = SIZE_MAX_win64 \/ 1 = 1) /\ 1 <> 0 /\ 1 <> 2).
Proof.
  assert (Hmax : 65535 <= SIZE_MAX_win64) by (vm_compute; discriminate).
  assert (Hreach : reachable gdi_startup_fails SIZE_MAX_win64
            {| current_error := 1; memory := ∅;
               gdi_calls := [GdiplusStartup (Loc 1)] |}).
  { apply (reachable_returned gdi_startup_fails SIZE_MAX_win64
             (initial_state SIZE_MAX_win64)
             (op_initialize_gdiplus (Loc 1)) (RInt 0)).
    - apply reachable_initial.
    - reflexivity. }
  split; [exact Hmax|]. split; [exact Hreach|].
  exact (current_error_initial_or_status gdi_startup_fails SIZE_MAX_win64 _
           Hmax Hreach).
Defined.

(** C9: [err_pointer] indexes [error_list] with [current_error], which
    starts at [SIZE_MAX]: before any call has failed the read is outside
    the three-element array, and once a call has failed it is inside. *)
Theorem err_pointer_in_bounds_only_after_failure gdi SIZE_MAX ops vs st :
  65535 <= SIZE_MAX ->
  run gdi ops (initial_state SIZE_MAX) = Returned vs st ->
  err_pointer (initial_state SIZE_MAX) = None
  /\ (existsb failed vs = false ->
      current_error st = SIZE_MAX /\ err_pointer st = None)
  /\ (existsb failed vs = true ->
      err_pointer st = Some "GDI+ function returned non-OK status"%string).
Proof.
  intros Hmax Hrun. apply run_returned_slot in Hrun. simpl in Hrun.
  split; [apply err_pointer_out_of_bounds; simpl; lia|].
  split; intros Hf; rewrite Hf in Hrun.
  - split; [exact Hrun|]. apply err_pointer_out_of_bounds. lia.
  - apply err_pointer_status. exact Hrun.
Qed.

Lemma err_pointer_in_bounds_only_after_failure_witness :
  65535 <= 2 ^ 32 - 1 /\
  run gdi_ok [op_create_pen black 3 (Loc 1); op_draw_line (Loc 0) (Loc 1) 0 0 5 5]
    (initial_state (2 ^ 32 - 1))
  = Returned [RInt 1; RInt 1]
      {| current_error := 2 ^ 32 - 1;
         memory := <[1%N := CPen {| native_pen := 4096; pen_last_status := 0 |}]> ∅;
         gdi_calls :=
           [ Pen_new (0, 0, 0, 0) 3;
             Pen_delete {| obj_native := 4096; obj_status := 0 |};
             DrawLine (Loc 0) (Loc 1) 0 0 5 5 ] |} /\
  err_pointer (initial_state (2 ^ 32 - 1)) = None.
Proof.
  split; [lia|]. split; [reflexivity|].
  exact (proj1 (err_pointer_in_bounds_only_after_failure gdi_ok (2 ^ 32 - 1)
           [op_create_pen black 3 (Loc 1); op_draw_line (Loc 0) (Loc 1) 0 0 5 5]
           [RInt 1; RInt 1] _ ltac:(lia) eq_refl)).
Defined.

(** Calls that return, and the one failure the code reports.  Take any
    call that returns, followed by any number of calls that return
    something other than 0.  Those leave the slot as the first call left
    it.  If the first call did not return 0 either, the slot is what it
    was before; if it returned 0, it was a start-up that GDI+ refused, and
    [err_pointer] gives the non-OK-status message right after it and still
    after the calls that follow.  Failures that do not end in a returned 0
    (an escaping exception, a store through [nullptr]) are outside this
    statement; [failure_kind_not_recorded] below is about them. *)
Theorem returned_calls_error_slot gdi o ops v vs st st' :
  run gdi (o :: ops) st = Returned (v :: vs) st' ->
  existsb failed vs = false ->
  exists st1,
    exec gdi o st = Returned v st1
    /\ current_error st' = current_error st1
    /\ (failed v = false -> current_error st1 = current_error st)
    /\ (failed v = true ->
        (exists token s x,
            o = op_initialize_gdiplus token /\
            gdi (gdi_calls st) (GdiplusStartup token) = Replied s x /\
            s <> Ok)
        /\ err_pointer st1 = Some "GDI+ function returned non-OK status"%string
        /\ err_pointer st' = Some "GDI+ function returned non-OK status"%string).
Proof.
  intros Hrun Hvs.
  apply run_cons_inv in Hrun as (v0 & st1 & vs' & Ho & Hrest & [= <- <-]).
  exists st1. apply run_returned_slot in Hrest. rewrite Hvs in Hrest.
  pose proof (exec_error_slot gdi o st) as P. rewrite Ho in P.
  repeat split; try assumption.
  - intros Hv. destruct P as [[_ P]|[P _]]; congruence.
  - destruct P as [[P _]|(_ & _ & P)]; [congruence|exact P].
  - destruct P as [[P _]|(_ & P & _)]; [congruence|].
    apply err_pointer_status. exact P.
  - destruct P as [[P _]|(_ & P & _)]; [congruence|].
    apply err_pointer_status. congruence.
Qed.

Lemma returned_calls_error_slot_witness :
  run gdi_startup_fails
      [ op_initialize_gdiplus (Loc 1);
        op_create_brush red (Loc 2);
        op_fill_rectangle (Loc 3) (Loc 2) 0 0 10 10 ]
      (initial_state SIZE_MAX_win64)
  = Returned [RInt 0; RInt 1; RInt 1]
      {| current_error := 1;
         memory := <[2%N := CBrush {| native_brush := 4096;
                                       brush_last_status := 0 |}]> ∅;
         gdi_calls :=
           [ GdiplusStartup (Loc 1);
             Brush_new (255, 0, 0, 255);
             Brush_delete {| obj_native := 4096; obj_status := 0 |};
             FillRectangle (Loc 3) (Loc 2) 0 0 10 10 ] |}
  /\ existsb failed [RInt 1; RInt 1] = false
  /\ exists st1,
      exec gdi_startup_fails (op_initialize_gdiplus (Loc 1)) (initial_state SIZE_MAX_win64)
      = Returned (RInt 0) st1
      /\ 1 = current_error st1.
Proof.
  split; [reflexivity|]. split; [reflexivity|].
  destruct (returned_calls_error_slot gdi_startup_fails
              (op_initialize_gdiplus (Loc 1))
              [ op_create_brush red (Loc 2);
                op_fill_rectangle (Loc 3) (Loc 2) 0 0 10 10 ]
              (RInt 0) [RInt 1; RInt 1] (initial_state SIZE_MAX_win64) _
              eq_refl eq_refl) as (st1 & Ho & Hslot & _).
  exists st1. split; [exact Ho|exact Hslot].
Defined.

(** ** The entry points one by one *)

(** C3: when the native start-up routine answers a status other than [Ok],
    [initialize_gdiplus] returns 0 and leaves 1, the index of the
    non-OK-status message, in the error slot; when it answers [Ok],
    [initialize_gdiplus] returns 1 and the slot is unchanged. *)
Theorem initialize_gdiplus_follows_status gdi token st s x :
  gdi (gdi_calls st) (GdiplusStartup token) = Replied s x ->
  exists st',
    (s <> Ok ->
     initialize_gdiplus gdi token st = Returned 0 st'
     /\ current_error st' = 1
     /\ err_pointer st' = Some "GDI+ function returned non-OK status"%string)
    /\ (s = Ok ->
        initialize_gdiplus gdi token st = Returned 1 st'
        /\ current_error st' = current_error st).
Proof.
  intros Hreply. unfold_bridge. rewrite Hreply.
  destruct (Z.eqb_spec s Ok) as [Hs|Hs].
  - assert (E : (s =? Ok) = true) by (apply Z.eqb_eq; exact Hs).
    destruct token; simpl; rewrite ?E; simpl;
      eexists; (split; intros H; [contradiction|]); split; reflexivity.
  - assert (E : (s =? Ok) = false) by (apply Z.eqb_neq; exact Hs).
    destruct token; simpl; rewrite ?E; simpl;
      eexists; (split; intros H; [|contradiction]); repeat split; reflexivity.
Qed.

Lemma initialize_gdiplus_follows_status_witness :
  gdi_startup_fails (gdi_calls (initial_state SIZE_MAX_win64)) (GdiplusStartup (Loc 1))
  = Replied 17 0
  /\ exists st',
      initialize_gdiplus gdi_startup_fails (Loc 1) (initial_state SIZE_MAX_win64)
      = Returned 0 st'
      /\ current_error st' = 1.
Proof.
  split; [reflexivity|].
  destruct (initialize_gdiplus_follows_status gdi_startup_fails (Loc 1)
              (initial_state SIZE_MAX_win64) 17 0 eq_refl) as (st' & Hfail & _).
  exists st'. destruct (Hfail ltac:(discriminate)) as (Hret & Hslot & _).
  split; [exact Hret|exact Hslot].
Defined.

(** C6: for every HDC and every non-null output location, whatever status
    GDI+ leaves in the new object, [from_hdc] returns 1: it stores the
    object, forwards only the construction and the end of the temporary,
    and does not touch the error slot. *)
Theorem from_hdc_always_succeeds gdi hDC a st :
  nothrow gdi ->
  exists tmp st',
    from_hdc gdi hDC (Loc a) st = Returned 1 st'
    /\ current_error st' = current_error st
    /\ memory st' = <[a := CGraphics (object_graphics tmp)]> (memory st)
    /\ gdi_calls st' = gdi_calls st ++ [Graphics_new hDC; Graphics_delete tmp].
Proof.
  intros Hgdi. unfold_bridge.
  destruct (gdi (gdi_calls st) (Graphics_new hDC)) as [s x|] eqn:Hnew;
    [|exfalso; exact (Hgdi _ _ Hnew)].
  simpl.
  destruct (gdi (gdi_calls st ++ [Graphics_new hDC])
              (Graphics_delete {| obj_native := x; obj_status := s |}))
    as [s' x'|] eqn:Hdel; [|exfalso; exact (Hgdi _ _ Hdel)].
  simpl. exists {| obj_native := x; obj_status := s |}. eexists.
  repeat split. simpl. rewrite <- app_assoc. reflexivity.
Qed.

Lemma gdi_draw_fails_nothrow : nothrow gdi_draw_fails.
Proof. intros earlier c. destruct c; discriminate. Qed.

Lemma gdi_ok_nothrow : nothrow gdi_ok.
Proof. intros earlier c. destruct c; discriminate. Qed.

Lemma from_hdc_always_succeeds_witness :
  nothrow gdi_ok
  /\ exists tmp st',
      from_hdc gdi_ok 77 (Loc 5) (initial_state SIZE_MAX_win64) = Returned 1 st'
      /\ current_error st' = SIZE_MAX_win64
      /\ memory st' = <[5%N := CGraphics (object_graphics tmp)]> ∅
      /\ gdi_calls st' = [Graphics_new 77; Graphics_delete tmp].
Proof.
  split; [exact gdi_ok_nothrow|].
  exact (from_hdc_always_succeeds gdi_ok 77 5%N (initial_state SIZE_MAX_win64)
           gdi_ok_nothrow).
Defined.

(** C7: for every valid colour and every unsigned 32-bit width,
    [create_pen] into a caller's location returns 1, and after [done_pen]
    on the handle it produced the error slot holds what it held before
    the two calls. *)
Theorem create_pen_then_done_pen gdi color width a st :
  valid_color color ->
  valid_width width ->
  nothrow gdi ->
  exists h st1 st2,
    create_pen gdi color width (Loc a) st = Returned 1 st1
    /\ memory st1 !! a = Some (CPen h)
    /\ done_pen gdi h st1 = Returned tt st2
    /\ current_error st1 = current_error st
    /\ current_error st2 = current_error st.
Proof.
  intros _ _ Hgdi. unfold_bridge.
  destruct (gdi (gdi_calls st) (Pen_new (cvt_clr color) width))
    as [s x|] eqn:Hnew; [|exfalso; exact (Hgdi _ _ Hnew)].
  simpl.
  destruct (gdi (gdi_calls st ++ [Pen_new (cvt_clr color) width])
              (Pen_delete {| obj_native := x; obj_status := s |}))
    as [s' x'|] eqn:Hdel; [|exfalso; exact (Hgdi _ _ Hdel)].
  simpl.
  exists (object_pen {| obj_native := x; obj_status := s |}).
  eexists. 
  destruct (gdi ((gdi_calls st ++ [Pen_new (cvt_clr color) width]) ++
                 [Pen_delete {| obj_native := x; obj_status := s |}])
              (Pen_delete (pen_object
                 (object_pen {| obj_native := x; obj_status := s |}))))
    as [s'' x''|] eqn:Hdone; [|exfalso; exact (Hgdi _ _ Hdone)].
  eexists. split; [reflexivity|]. simpl. rewrite Hdone.
  split; [apply lookup_insert_eq|]. repeat split.
Qed.

Lemma create_pen_then_done_pen_witness :
  valid_color red /\ valid_width 3 /\ nothrow gdi_draw_fails
  /\ exists h st1 st2,
      create_pen gdi_draw_fails red 3 (Loc 9) (initial_state SIZE_MAX_win64)
      = Returned 1 st1
      /\ memory st1 !! 9%N = Some (CPen h)
      /\ done_pen gdi_draw_fails h st1 = Returned tt st2
      /\ current_error st1 = SIZE_MAX_win64
      /\ current_error st2 = SIZE_MAX_win64.
Proof.
  assert (Hc : valid_color red) by (unfold valid_color; simpl; lia).
  assert (Hw : valid_width 3) by (unfold valid_width; lia).
  split; [exact Hc|]. split; [exact Hw|].
  split; [exact gdi_draw_fails_nothrow|].
  exact (create_pen_then_done_pen gdi_draw_fails red 3 9%N
           (initial_state SIZE_MAX_win64) Hc Hw gdi_draw_fails_nothrow).
Defined.

(** C8: each of the seven drawing entry points forwards one native call
    and, whatever status that call answers, returns 1 with the error slot
    untouched; no outcome of a drawing call writes the slot. *)
Theorem drawing_returns_1 gdi o st :
  is_drawing o = true ->
  exists c,
    forwarded o = Some c
    /\ (forall s x,
          gdi (gdi_calls st) c = Replied s x ->
          exec gdi o st = Returned (RInt 1) (log_call c st))
    /\ current_error (log_call c st) = current_error st
    /\ keeps_error_slot (exec gdi o).
Proof.
  intros Hdraw.
  destruct o; try discriminate; simpl; eexists; (split; [reflexivity|]);
    (split; [intros ? ? Hreply; unfold_bridge; rewrite Hreply; reflexivity|]);
    (split; [reflexivity|]);
    apply (keeps_drawing gdi _ Hdraw).
Qed.

Lemma drawing_returns_1_witness :
  is_drawing (op_fill_ellipse (Loc 1) (Loc 2) 0 0 10 10) = true
  /\ gdi_draw_fails [] (FillEllipse (Loc 1) (Loc 2) 0 0 10 10) = Replied 3 0
  /\ exec gdi_draw_fails (op_fill_ellipse (Loc 1) (Loc 2) 0 0 10 10)
       (initial_state SIZE_MAX_win64)
     = Returned (RInt 1)
         {| current_error := SIZE_MAX_win64; memory := ∅;
            gdi_calls := [FillEllipse (Loc 1) (Loc 2) 0 0 10 10] |}.
Proof.
  split; [reflexivity|]. split; [reflexivity|].
  destruct (drawing_returns_1 gdi_draw_fails
              (op_fill_ellipse (Loc 1) (Loc 2) 0 0 10 10)
              (initial_state SIZE_MAX_win64) eq_refl) as (c & Hc & Hret & _).
  injection Hc as <-.
  exact (Hret 3 0 eq_refl).
Defined.

(** C2: for all start and end angles, [draw_arc] and [fill_arc] forward
    exactly one native call ([DrawArc], [FillPie]) whose sweep argument is
    the [float] difference end - start, with the start angle, the handles
    and the rectangle as they were given. *)
Theorem arc_sweep_is_end_minus_start gdi graphics tool l t w h s e st :
  (exists st',
      final_state (draw_arc gdi graphics tool l t w h s e st) = Some st'
      /\ gdi_calls st'
         = gdi_calls st ++ [DrawArc graphics tool l t w h s (float_sub e s)])
  /\ (exists st',
      final_state (fill_arc gdi graphics tool l t w h s e st) = Some st'
      /\ gdi_calls st'
         = gdi_calls st ++ [FillPie graphics tool l t w h s (float_sub e s)]).
Proof.
  split; unfold_bridge; case_replies; eexists; split; reflexivity.
Qed.

(** With an end angle below the start angle the sweep is negative. *)
Example draw_arc_negative_sweep :
  draw_arc gdi_ok (Loc 1) (Loc 2) 10 20 30 40 f90 f45 (initial_state SIZE_MAX_win64)
  = Returned 1
      {| current_error := SIZE_MAX_win64; memory := ∅;
         gdi_calls := [DrawArc (Loc 1) (Loc 2) 10 20 30 40 f90 fm45] |}.
Proof. reflexivity. Qed.

Example fill_arc_negative_sweep :
  fill_arc gdi_ok (Loc 1) (Loc 2) 10 20 30 40 f90 f45 (initial_state SIZE_MAX_win64)
  = Returned 1
      {| current_error := SIZE_MAX_win64; memory := ∅;
         gdi_calls := [FillPie (Loc 1) (Loc 2) 10 20 30 40 f90 fm45] |}.
Proof. reflexivity. Qed.

(** ** Error kinds the bridge never reports *)

(** No entry point checks its output pointer: a creation call on [nullptr]
    never returns, and a start-up on [nullptr] returns what the native
    status says, with 1 in the slot when it returns 0. *)
Lemma null_output_pointer_unchecked gdi color width st :
  (forall v st', create_pen gdi color width nullptr st <> Returned v st')
  /\ (forall v st', create_brush gdi color nullptr st <> Returned v st')
  /\ (forall hDC v st', from_hdc gdi hDC nullptr st <> Returned v st')
  /\ (forall v st',
        initialize_gdiplus gdi nullptr st = Returned v st' ->
        (v = 0 /\ current_error st' = 1)
        \/ (v = 1 /\ current_error st' = current_error st)).
Proof.
  repeat split; intros; unfold_bridge.
  1-3: case_replies; discriminate.
  revert H. case_replies; intros [= <- <-]; auto.
Qed.

(** C1 (what the code does instead): with a null token location and a
    GDI+ that refuses it, [initialize_gdiplus] returns 0 but records
    index 1, the non-OK-status message, not index 2; [create_pen] and
    [create_brush] with a null output pointer store through it and do not
    return at all. *)
Theorem null_output_pointer_not_reported :
  initialize_gdiplus gdi_checks_token nullptr (initial_state SIZE_MAX_win64)
  = Returned 0 {| current_error := 1; memory := ∅;
                  gdi_calls := [GdiplusStartup nullptr] |}
  /\ err_pointer {| current_error := 1; memory := ∅;
                    gdi_calls := [GdiplusStartup nullptr] |}
     = Some "GDI+ function returned non-OK status"%string
  /\ nth_error error_list 2 = Some "startup_token pointer is null"%string
  /\ create_pen gdi_checks_token black 1 nullptr (initial_state SIZE_MAX_win64) = Fault
  /\ create_brush gdi_checks_token red nullptr (initial_state SIZE_MAX_win64) = Fault.
Proof.
  split; [reflexivity|].
  split; [apply err_pointer_status; reflexivity|].
  split; [reflexivity|].
  split; reflexivity.
Qed.

(** C5 (what the code does instead): a failure is followed by the message
    of its kind only when GDI+ refused a start-up with a token location.
    A start-up on a null token location that GDI+ refuses is recorded as a
    non-OK status: [err_pointer] hands back message 1, not message 2,
    right after it and after a later successful call.  A [create_pen]
    whose native allocation throws records nothing: the slot is still
    [SIZE_MAX] and [err_pointer] reads outside [error_list], where
    message 0 was due.  Were the slot 0 or 2, [err_pointer] would hand
    back those messages. *)
Theorem failure_kind_not_recorded :
  run gdi_checks_token
    [ op_initialize_gdiplus nullptr; op_err_pointer;
      op_create_brush red (Loc 2); op_err_pointer ]
    (initial_state SIZE_MAX_win64)
  = Returned
      [ RInt 0; RMessage (Some status_message);
        RInt 1; RMessage (Some status_message) ]
      {| current_error := 1;
         memory := <[2%N := CBrush {| native_brush := 4096;
                                       brush_last_status := 0 |}]> ∅;
         gdi_calls :=
           [ GdiplusStartup nullptr;
             Brush_new (255, 0, 0, 255);
             Brush_delete {| obj_native := 4096; obj_status := 0 |} ] |}
  /\ Some status_message <> nth_error error_list 2
  /\ exec gdi_alloc_throws (op_create_pen black 1 (Loc 1))
       (initial_state SIZE_MAX_win64)
     = Unwound {| current_error := SIZE_MAX_win64; memory := ∅;
                  gdi_calls := [Pen_new (0, 0, 0, 0) 1] |}
  /\ exec gdi_alloc_throws op_err_pointer
       {| current_error := SIZE_MAX_win64; memory := ∅;
          gdi_calls := [Pen_new (0, 0, 0, 0) 1] |}
     = Returned (RMessage None)
         {| current_error := SIZE_MAX_win64; memory := ∅;
            gdi_calls := [Pen_new (0, 0, 0, 0) 1] |}
  /\ err_pointer {| current_error := 0; memory := ∅; gdi_calls := [] |}
     = Some "GDI+ threw an exception"%string
  /\ err_pointer {| current_error := 2; memory := ∅; gdi_calls := [] |}
     = Some "startup_token pointer is null"%string.
Proof.
  split; [reflexivity|].
  split; [discriminate|].
  split; [reflexivity|].
  split; [reflexivity|].
  split; reflexivity.
Qed.

(** An exception of the native layer is not caught: the call unwinds with
    the error slot as it was. *)
Lemma native_exception_escapes gdi color width pen brush st :
  (gdi (gdi_calls st) (Pen_new (cvt_clr color) width) = Threw ->
   create_pen gdi color width pen st
   = Unwound (log_call (Pen_new (cvt_clr color) width) st))
  /\ (gdi (gdi_calls st) (Brush_new (cvt_clr color)) = Threw ->
      create_brush gdi color brush st
      = Unwound (log_call (Brush_new (cvt_clr color)) st)).
Proof.
  split; intros Hthrow; unfold_bridge; rewrite Hthrow; reflexivity.
Qed.

(** C4 (what the code does instead): when allocating the native pen or
    brush throws, [create_pen] and [create_brush] do not return 0 and do
    not record index 0: the exception leaves the function and the error
    slot keeps its value. *)
Theorem native_exception_not_reported :
  create_pen gdi_alloc_throws black 1 (Loc 1) (initial_state SIZE_MAX_win64)
  = Unwound {| current_error := SIZE_MAX_win64; memory := ∅;
               gdi_calls := [Pen_new (0, 0, 0, 0) 1] |}
  /\ create_brush gdi_alloc_throws red (Loc 2) (initial_state SIZE_MAX_win64)
     = Unwound {| current_error := SIZE_MAX_win64; memory := ∅;
                  gdi_calls := [Brush_new (255, 0, 0, 255)] |}.
Proof. split; reflexivity. Qed.

(** ** What a caller sees of each entry point *)

(** The value an entry point hands back, by entry point. *)
Lemma exec_retval gdi o st v st' :
  exec gdi o st = Returned v st' ->
  match o with
  | op_err_pointer => v = RMessage (err_pointer st) /\ st' = st
  | op_initialize_gdiplus _ => v = RInt 0 \/ v = RInt 1
  | op_done_gdiplus _ | op_done_graphics _ | op_done_pen _ | op_done_brush _ =>
      v = RVoid
  | _ => v = RInt 1
  end.
Proof.
  destruct o; unfold_bridge; simpl; case_replies;
    intros H; inversion H; subst; auto.
Qed.

(** A release call ([done_gdiplus], [done_graphics], [done_pen],
    [done_brush]) forwards one native call, for the token or for the object
    read from the handle it was given, and has no way to report: whatever
    status that call answers, the release returns with the error slot and
    the caller's storage as they were. *)
Theorem release_reports_nothing gdi o c st s x :
  released o = Some c ->
  gdi (gdi_calls st) c = Replied s x ->
  exists st',
    exec gdi o st = Returned RVoid st'
    /\ current_error st' = current_error st
    /\ memory st' = memory st
    /\ gdi_calls st' = gdi_calls st ++ [c].
Proof.
  intros Hrel Hreply.
  destruct o; try discriminate; simpl in Hrel; injection Hrel as <-;
    unfold_bridge; rewrite Hreply; eexists; repeat split.
Qed.

Lemma release_reports_nothing_witness :
  released (op_done_brush {| native_brush := 0; brush_last_status := 3 |})
  = Some (Brush_delete {| obj_native := 0; obj_status := 3 |})
  /\ gdi_draw_fails [] (Brush_delete {| obj_native := 0; obj_status := 3 |})
     = Replied Ok 4096
  /\ exists st',
      exec gdi_draw_fails
        (op_done_brush {| native_brush := 0; brush_last_status := 3 |})
        (initial_state SIZE_MAX_win64)
      = Returned RVoid st'
      /\ current_error st' = SIZE_MAX_win64
      /\ memory st' = ∅
      /\ gdi_calls st' = [Brush_delete {| obj_native := 0; obj_status := 3 |}].
Proof.
  split; [reflexivity|]. split; [reflexivity|].
  exact (release_reports_nothing gdi_draw_fails
           (op_done_brush {| native_brush := 0; brush_last_status := 3 |})
           _ (initial_state SIZE_MAX_win64) Ok 4096 eq_refl eq_refl).
Defined.

(** The entry points that hand GDI+ no pointer to a handle (start-up,
    creation, release, [err_pointer]; not the drawing calls): however such
    a call ends, the caller's storage changes at most at the output
    location it was given.  Every other location keeps its content, and a
    call without an output location (a release, [err_pointer], a creation
    on [nullptr] that unwinds) leaves all of it alone. *)
Theorem storage_written_only_at_output gdi o st st' :
  is_drawing o = false ->
  final_state (exec gdi o st) = Some st' ->
  (forall a' : N, output_location o <> Some a' ->
                  memory st' !! a' = memory st !! a')
  /\ (output_location o = None -> memory st' = memory st).
Proof.
  intros Hnodraw Hfinal.
  assert (Hframe : forall a' : N, output_location o <> Some a' ->
                                  memory st' !! a' = memory st !! a').
  { intros a' Hout. revert Hfinal.
    destruct o; try discriminate Hnodraw; unfold_bridge; simpl; case_replies;
      intros H; inversion H; subst; simpl; try reflexivity;
      apply lookup_insert_ne; simpl in Hout; congruence. }
  split; [exact Hframe|].
  intros Hnone. apply map_eq. intros a'. apply Hframe. congruence.
Qed.

Lemma storage_written_only_at_output_witness :
  is_drawing (op_create_pen red 2 (Loc 4)) = false
  /\ final_state (exec gdi_ok (op_create_pen red 2 (Loc 4))
                    {| current_error := 1;
                       memory := <[9%N := CToken 7]> ∅;
                       gdi_calls := [] |})
     = Some {| current_error := 1;
               memory := <[4%N := CPen {| native_pen := 4096;
                                          pen_last_status := 0 |}]>
                           (<[9%N := CToken 7]> ∅);
               gdi_calls :=
                 [ Pen_new (255, 0, 0, 255) 2;
                   Pen_delete {| obj_native := 4096; obj_status := 0 |} ] |}
  /\ (<[4%N := CPen {| native_pen := 4096; pen_last_status := 0 |}]>
        (<[9%N := CToken 7]> (∅ : gmap N cell))) !! 9%N
     = (<[9%N := CToken 7]> (∅ : gmap N cell)) !! 9%N.
Proof.
  split; [reflexivity|]. split; [reflexivity|].
  exact (proj1 (storage_written_only_at_output gdi_ok
                  (op_create_pen red 2 (Loc 4))
                  {| current_error := 1;
                     memory := <[9%N := CToken 7]> ∅;
                     gdi_calls := [] |}
                  _ eq_refl eq_refl)
           9%N ltac:(discriminate)).
Defined.

(** A creation call does not look at the status GDI+ gives the new object:
    also when the allocation is refused, [from_hdc], [create_pen] and
    [create_brush] return 1, and the status is only to be found in the
    handle they stored, next to the native pointer. *)
Theorem creation_keeps_native_status gdi a st s x :
  nothrow gdi ->
  (forall hDC,
      gdi (gdi_calls st) (Graphics_new hDC) = Replied s x ->
      exists st',
        from_hdc gdi hDC (Loc a) st = Returned 1 st'
        /\ memory st' !! a
           = Some (CGraphics {| native_graphics := x;
                                graphics_last_status := s |}))
  /\ (forall color width,
         gdi (gdi_calls st) (Pen_new (cvt_clr color) width) = Replied s x ->
         exists st',
           create_pen gdi color width (Loc a) st = Returned 1 st'
           /\ memory st' !! a
              = Some (CPen {| native_pen := x; pen_last_status := s |}))
  /\ (forall color,
         gdi (gdi_calls st) (Brush_new (cvt_clr color)) = Replied s x ->
         exists st',
           create_brush gdi color (Loc a) st = Returned 1 st'
           /\ memory st' !! a
              = Some (CBrush {| native_brush := x; brush_last_status := s |})).
Proof.
  intros Hgdi. repeat split; intros; unfold_bridge;
    match goal with H : gdi _ _ = Replied _ _ |- _ => rewrite H end; simpl;
    match goal with
    | |- context [match gdi ?e ?c with Replied _ _ => _ | Threw => _ end] =>
        destruct (gdi e c) eqn:Hdel; [|exfalso; exact (Hgdi _ _ Hdel)]
    end;
    simpl; eexists; (split; [reflexivity|]); simpl; apply lookup_insert_eq.
Qed.

Lemma gdi_alloc_fails_nothrow : nothrow gdi_alloc_fails.
Proof. intros earlier c. destruct c; discriminate. Qed.

Lemma creation_keeps_native_status_witness :
  nothrow gdi_alloc_fails
  /\ gdi_alloc_fails [] (Brush_new (cvt_clr red)) = Replied 3 0
  /\ exists st',
      create_brush gdi_alloc_fails red (Loc 6) (initial_state SIZE_MAX_win64)
      = Returned 1 st'
      /\ memory st' !! 6%N
         = Some (CBrush {| native_brush := 0; brush_last_status := 3 |}).
Proof.
  split; [exact gdi_alloc_fails_nothrow|]. split; [reflexivity|].
  exact (proj2 (proj2 (creation_keeps_native_status gdi_alloc_fails 6%N
                         (initial_state SIZE_MAX_win64) 3 0
                         gdi_alloc_fails_nothrow))
           red eq_refl).
Defined.

(** [from_hdc] does not check its output pointer either: given [nullptr]
    it still has GDI+ build the graphics object and then stores through
    the null pointer, so it never returns. *)
Theorem from_hdc_null_never_returns gdi hDC st :
  (forall v st', from_hdc gdi hDC nullptr st <> Returned v st')
  /\ (forall s x,
         gdi (gdi_calls st) (Graphics_new hDC) = Replied s x ->
         from_hdc gdi hDC nullptr st = Fault).
Proof.
  split.
  - intros v st'. unfold_bridge. case_replies; discriminate.
  - intros s x Hreply. unfold_bridge. rewrite Hreply. reflexivity.
Qed.

(** ** Creation followed by release *)

(** A start-up that GDI+ accepts leaves the token GDI+ issued at the
    caller's location, and [done_gdiplus] on that token forwards the
    shut-down for exactly that token; the pair leaves the error slot as it
    was. *)
Theorem startup_shutdown_round_trip gdi a st t s x :
  gdi (gdi_calls st) (GdiplusStartup (Loc a)) = Replied Ok t ->
  gdi (gdi_calls st ++ [GdiplusStartup (Loc a)]) (GdiplusShutdown t)
  = Replied s x ->
  exists st1 st2,
    initialize_gdiplus gdi (Loc a) st = Returned 1 st1
    /\ memory st1 !! a = Some (CToken t)
    /\ done_gdiplus gdi t st1 = Returned tt st2
    /\ current_error st2 = current_error st
    /\ gdi_calls st2
       = gdi_calls st ++ [GdiplusStartup (Loc a); GdiplusShutdown t].
Proof.
  intros Hstart Hstop. unfold_bridge. rewrite Hstart. simpl.
  eexists. eexists. split; [reflexivity|]. simpl. rewrite Hstop.
  split; [apply lookup_insert_eq|]. split; [reflexivity|].
  split; [reflexivity|]. simpl. rewrite <- app_assoc. reflexivity.
Qed.

Lemma startup_shutdown_round_trip_witness :
  gdi_ok [] (GdiplusStartup (Loc 1)) = Replied Ok 7
  /\ gdi_ok [GdiplusStartup (Loc 1)] (GdiplusShutdown 7) = Replied Ok 4096
  /\ exists st1 st2,
      initialize_gdiplus gdi_ok (Loc 1) (initial_state SIZE_MAX_win64)
      = Returned 1 st1
      /\ memory st1 !! 1%N = Some (CToken 7)
      /\ done_gdiplus gdi_ok 7 st1 = Returned tt st2
      /\ current_error st2 = SIZE_MAX_win64
      /\ gdi_calls st2 = [GdiplusStartup (Loc 1); GdiplusShutdown 7].
Proof.
  split; [reflexivity|]. split; [reflexivity|].
  exact (startup_shutdown_round_trip gdi_ok 1%N (initial_state SIZE_MAX_win64)
           7 Ok 4096 eq_refl eq_refl).
Defined.

(** The object a creation call builds is a temporary: its destructor has
    been forwarded by the time [create_brush] returns, and [done_brush] on
    the handle that was stored forwards the destructor for the same object
    a second time.  The same holds for [from_hdc] with [done_graphics]. *)
Theorem handle_object_destroyed_twice gdi a st :
  nothrow gdi ->
  (forall color,
      exists o st1 st2,
        create_brush gdi color (Loc a) st = Returned 1 st1
        /\ memory st1 !! a = Some (CBrush (object_brush o))
        /\ done_brush gdi (object_brush o) st1 = Returned tt st2
        /\ gdi_calls st2
           = gdi_calls st
               ++ [Brush_new (cvt_clr color); Brush_delete o; Brush_delete o])
  /\ (forall hDC,
         exists o st1 st2,
           from_hdc gdi hDC (Loc a) st = Returned 1 st1
           /\ memory st1 !! a = Some (CGraphics (object_graphics o))
           /\ done_graphics gdi (object_graphics o) st1 = Returned tt st2
           /\ gdi_calls st2
              = gdi_calls st
                  ++ [Graphics_new hDC; Graphics_delete o; Graphics_delete o]).
Proof.
  intros Hgdi. split; intros arg; unfold_bridge.
  - destruct (gdi (gdi_calls st) (Brush_new (cvt_clr arg)))
      as [s x|] eqn:Hnew; [|exfalso; exact (Hgdi _ _ Hnew)].
    simpl.
    destruct (gdi (gdi_calls st ++ [Brush_new (cvt_clr arg)])
                (Brush_delete {| obj_native := x; obj_status := s |}))
      as [s1 x1|] eqn:Hdel; [|exfalso; exact (Hgdi _ _ Hdel)].
    simpl. exists {| obj_native := x; obj_status := s |}. eexists.
    destruct (gdi ((gdi_calls st ++ [Brush_new (cvt_clr arg)]) ++
                   [Brush_delete {| obj_native := x; obj_status := s |}])
                (Brush_delete (brush_object
                   (object_brush {| obj_native := x; obj_status := s |}))))
      as [s2 x2|] eqn:Hdone; [|exfalso; exact (Hgdi _ _ Hdone)].
    eexists. split; [reflexivity|]. simpl. rewrite Hdone.
    split; [apply lookup_insert_eq|]. split; [reflexivity|].
    simpl. rewrite <- !app_assoc. reflexivity.
  - destruct (gdi (gdi_calls st) (Graphics_new arg))
      as [s x|] eqn:Hnew; [|exfalso; exact (Hgdi _ _ Hnew)].
    simpl.
    destruct (gdi (gdi_calls st ++ [Graphics_new arg])
                (Graphics_delete {| obj_native := x; obj_status := s |}))
      as [s1 x1|] eqn:Hdel; [|exfalso; exact (Hgdi _ _ Hdel)].
    simpl. exists {| obj_native := x; obj_status := s |}. eexists.
    destruct (gdi ((gdi_calls st ++ [Graphics_new arg]) ++
                   [Graphics_delete {| obj_native := x; obj_status := s |}])
                (Graphics_delete (graphics_object
                   (object_graphics {| obj_native := x; obj_status := s |}))))
      as [s2 x2|] eqn:Hdone; [|exfalso; exact (Hgdi _ _ Hdone)].
    eexists. split; [reflexivity|]. simpl. rewrite Hdone.
    split; [apply lookup_insert_eq|]. split; [reflexivity|].
    simpl. rewrite <- !app_assoc. reflexivity.
Qed.

Lemma handle_object_destroyed_twice_witness :
  nothrow gdi_ok
  /\ exists o st1 st2,
      create_brush gdi_ok red (Loc 2) (initial_state SIZE_MAX_win64)
      = Returned 1 st1
      /\ memory st1 !! 2%N = Some (CBrush (object_brush o))
      /\ done_brush gdi_ok (object_brush o) st1 = Returned tt st2
      /\ gdi_calls st2
         = gdi_calls (initial_state SIZE_MAX_win64)
             ++ [Brush_new (cvt_clr red); Brush_delete o; Brush_delete o].
Proof.
  split; [exact gdi_ok_nothrow|].
  exact (proj1 (handle_object_destroyed_twice gdi_ok 2%N
                  (initial_state SIZE_MAX_win64) gdi_ok_nothrow) red).
Defined.

(** ** Longer runs *)

(** However a run of calls ends, the slot holds what it held or 1. *)
Lemma run_final_slot gdi ops : forall st st',
  final_state (run gdi ops st) = Some st' ->
  current_error st' = current_error st \/ current_error st' = 1.
Proof.
  induction ops as [|o ops IH]; intros st st' H.
  - injection H as <-. left. reflexivity.
  - simpl in H. unfold bind in H.
    destruct (exec gdi o st) as [v st1| |st1] eqn:Ho; simpl in H.
    + apply exec_returned_slot in Ho.
      assert (Hrest : final_state (run gdi ops st1) = Some st').
      { destruct (run gdi ops st1); simpl in *; assumption. }
      apply IH in Hrest. destruct Hrest as [->| ->]; [|right; reflexivity].
      rewrite Ho. destruct (failed v); [right|left]; reflexivity.
    + discriminate.
    + injection H as <-. apply exec_unwound_slot in Ho. left. exact Ho.
Qed.

(** Nothing clears the error slot: once a start-up has failed, after any
    further calls, failing or not and however the last one ends,
    [current_error] is still 1 and [err_pointer] still gives the
    non-OK-status message. *)
Theorem recorded_failure_is_never_cleared gdi ops st st' :
  current_error st = 1 ->
  final_state (run gdi ops st) = Some st' ->
  current_error st' = 1 /\ err_pointer st' = Some status_message.
Proof.
  intros Hone Hrun. apply run_final_slot in Hrun.
  assert (H : current_error st' = 1) by (destruct Hrun; congruence).
  split; [exact H|]. apply err_pointer_status. exact H.
Qed.

Lemma recorded_failure_is_never_cleared_witness :
  current_error {| current_error := 1; memory := ∅;
                   gdi_calls := [GdiplusStartup nullptr] |} = 1
  /\ final_state
       (run gdi_ok [op_initialize_gdiplus (Loc 1); op_create_brush red nullptr]
          {| current_error := 1; memory := ∅;
             gdi_calls := [GdiplusStartup nullptr] |})
     = None
  /\ final_state
       (run gdi_ok [op_initialize_gdiplus (Loc 1); op_done_gdiplus 7]
          {| current_error := 1; memory := ∅;
             gdi_calls := [GdiplusStartup nullptr] |})
     = Some {| current_error := 1;
               memory := <[1%N := CToken 7]> ∅;
               gdi_calls := [ GdiplusStartup nullptr; GdiplusStartup (Loc 1);
                              GdiplusShutdown 7 ] |}
  /\ err_pointer {| current_error := 1;
                    memory := <[1%N := CToken 7]> ∅;
                    gdi_calls := [ GdiplusStartup nullptr;
                                   GdiplusStartup (Loc 1);
                                   GdiplusShutdown 7 ] |}
     = Some status_message.
Proof.
  split; [reflexivity|]. split; [reflexivity|]. split; [reflexivity|].
  exact (proj2 (recorded_failure_is_never_cleared gdi_ok
                  [op_initialize_gdiplus (Loc 1); op_done_gdiplus 7]
                  {| current_error := 1; memory := ∅;
                     gdi_calls := [GdiplusStartup nullptr] |}
                  _ eq_refl eq_refl)).
Defined.

Lemma run_messages gdi ops : forall st vs st' m,
  current_error st = 1 \/ 65535 <= current_error st ->
  run gdi ops st = Returned vs st' ->
  In (RMessage m) vs ->
  m = None \/ m = Some status_message.
Proof.
  induction ops as [|o ops IH]; intros st vs st' m Hinv Hrun Hin.
  - inversion Hrun; subst. destruct Hin.
  - apply run_cons_inv in Hrun as (v & st1 & vs' & Ho & Hrest & ->).
    destruct Hin as [Hv|Hin].
    + subst v. pose proof (exec_retval gdi o st _ _ Ho) as Hshape.
      destruct o; try (destruct Hshape; discriminate); try discriminate.
      destruct Hshape as [[= ->] _].
      destruct Hinv as [Hone|Hbig].
      * right. apply err_pointer_status. exact Hone.
      * left. apply err_pointer_out_of_bounds. exact Hbig.
    + apply (IH st1 vs' st' m); try assumption.
      apply exec_returned_slot in Ho. rewrite Ho.
      destruct (failed v); [left; reflexivity|exact Hinv].
Qed.

(** Of the three messages of [error_list] a caller can only ever be handed
    the second: in any run of calls from program start, what [err_pointer]
    hands back is a read outside the array (no call has failed yet) or the
    non-OK-status message, never the exception or the null-pointer
    message. *)
Theorem err_pointer_only_status_message gdi SIZE_MAX ops vs st m :
  65535 <= SIZE_MAX ->
  run gdi ops (initial_state SIZE_MAX) = Returned vs st ->
  In (RMessage m) vs ->
  m = None \/ m = Some status_message.
Proof.
  intros Hmax Hrun Hin.
  apply (run_messages gdi ops (initial_state SIZE_MAX) vs st m);
    [right; exact Hmax|exact Hrun|exact Hin].
Qed.

Lemma err_pointer_only_status_message_witness :
  65535 <= SIZE_MAX_win64
  /\ run gdi_checks_token
       [ op_err_pointer; op_initialize_gdiplus nullptr; op_err_pointer ]
       (initial_state SIZE_MAX_win64)
     = Returned [ RMessage None; RInt 0; RMessage (Some status_message) ]
         {| current_error := 1; memory := ∅;
            gdi_calls := [GdiplusStartup nullptr] |}
  /\ (Some status_message = None
      \/ Some status_message = Some status_message).
Proof.
  assert (Hmax : 65535 <= SIZE_MAX_win64) by (vm_compute; discriminate).
  split; [exact Hmax|]. split; [reflexivity|].
  exact (err_pointer_only_status_message gdi_checks_token SIZE_MAX_win64
           [ op_err_pointer; op_initialize_gdiplus nullptr; op_err_pointer ]
           [ RMessage None; RInt 0; RMessage (Some status_message) ]
           _ (Some status_message) Hmax eq_refl
           (or_intror (or_intror (or_introl eq_refl)))).
Defined.

Lemma exec_drawing gdi o st :
  nothrow gdi ->
  is_drawing o = true ->
  exists c,
    forwarded o = Some c /\ exec gdi o st = Returned (RInt 1) (log_call c st).
Proof.
  intros Hgdi Hdraw.
  destruct o; try discriminate; simpl; eexists; (split; [reflexivity|]);
    unfold_bridge;
    match goal with
    | |- context [match gdi ?e ?c with Replied _ _ => _ | Threw => _ end] =>
        destruct (gdi e c) eqn:Hreply; [|exfalso; exact (Hgdi _ _ Hreply)]
    end;
    reflexivity.
Qed.

(** Drawing calls are forwarded one for one and in the order they are
    made: a run of drawing calls returns 1 for each, whatever status GDI+
    answers, adds to the calls GDI+ has received exactly the native call
    of each, in order, and leaves the error slot as it was. *)
Theorem drawing_forwarded_in_order gdi ops : forall st,
  nothrow gdi ->
  forallb is_drawing ops = true ->
  exists st',
    run gdi ops st = Returned (map (fun _ => RInt 1) ops) st'
    /\ current_error st' = current_error st
    /\ gdi_calls st' = gdi_calls st ++ omap forwarded ops.
Proof.
  induction ops as [|o ops IH]; intros st Hgdi Hall.
  - exists st. simpl. rewrite app_nil_r. repeat split.
  - simpl in Hall. apply andb_true_iff in Hall as [Ho Hrest].
    destruct (exec_drawing gdi o st Hgdi Ho) as (c & Hc & Hexec).
    destruct (IH (log_call c st) Hgdi Hrest) as (st' & Hrun & Hslot & Hlog).
    exists st'. simpl. unfold bind, ret. rewrite Hexec, Hrun.
    split; [reflexivity|]. split; [exact Hslot|].
    rewrite Hlog. simpl. rewrite Hc. simpl. rewrite <- app_assoc. reflexivity.
Qed.

Lemma drawing_forwarded_in_order_witness :
  nothrow gdi_draw_fails
  /\ forallb is_drawing
       [ op_draw_line (Loc 1) (Loc 2) 0 0 5 5;
         op_fill_arc (Loc 1) (Loc 3) 0 0 10 10 f90 f45;
         op_draw_ellipse (Loc 1) (Loc 2) 1 1 4 4 ] = true
  /\ exists st',
      run gdi_draw_fails
        [ op_draw_line (Loc 1) (Loc 2) 0 0 5 5;
          op_fill_arc (Loc 1) (Loc 3) 0 0 10 10 f90 f45;
          op_draw_ellipse (Loc 1) (Loc 2) 1 1 4 4 ]
        (initial_state SIZE_MAX_win64)
      = Returned [RInt 1; RInt 1; RInt 1] st'
      /\ current_error st' = SIZE_MAX_win64
      /\ gdi_calls st'
         = [ DrawLine (Loc 1) (Loc 2) 0 0 5 5;
             FillPie (Loc 1) (Loc 3) 0 0 10 10 f90 fm45;
             DrawEllipse (Loc 1) (Loc 2) 1 1 4 4 ].
Proof.
  split; [exact gdi_draw_fails_nothrow|]. split; [reflexivity|].
  exact (drawing_forwarded_in_order gdi_draw_fails
           [ op_draw_line (Loc 1) (Loc 2) 0 0 5 5;
             op_fill_arc (Loc 1) (Loc 3) 0 0 10 10 f90 f45;
             op_draw_ellipse (Loc 1) (Loc 2) 1 1 4 4 ]
           (initial_state SIZE_MAX_win64)
           gdi_draw_fails_nothrow eq_refl).
Defined.
